(** * Sidebar and ScrollReveal: a shallow embedding of the component logic

    The two view components of the repository
    ([src/components/ui/sidebar.tsx] and the [ScrollReveal] wrapper) hold a
    handful of boolean flags and react to discrete UI events.  The markup,
    the class names and the easing curves play no part in what is proved
    here; the state cells, the closures created by a render, the hooks and
    the JavaScript timer queue do, and they are modelled explicitly. *)

From Stdlib Require Import Bool List Arith Lia String ZArith.
From Stdlib Require Import Sorting.Sorted.
Import ListNotations.

Set Implicit Arguments.

(** JavaScript's [a ?? b]: [b] only when [a] is [undefined]. *)
Definition nullish {A : Type} (a : option A) (b : A) : A :=
  match a with
  | Some v => v
  | None => b
  end.

Notation "a ?? b" := (nullish a b) (at level 45, left associativity).

(** A call either returns a value or throws [new Error(msg)]. *)
Inductive Result (A : Type) : Type :=
| Return (a : A)
| Throw (msg : string).

Arguments Return {A} a.
Arguments Throw {A} msg.

(** ** sidebar.tsx *)
Module Sidebar.

(** The two [React.Dispatch<SetStateAction<boolean>>] values that can end
    up in the context: the provider's own [setOpenState], or the function
    the caller handed in as the [setOpen] prop. *)
Inductive Dispatch : Type :=
| setOpenState
| callerSetOpen.

(** [interface SidebarContextProps]. *)
Record SidebarContextProps : Type := {
  open : bool;
  setOpen : Dispatch;
  animate : bool
}.

(** The state cells that outlive a single render: [openState] is the
    provider's [useState(false)] cell; [callerOpen] is the cell of the
    component that renders [<Sidebar>], the one a controlled [open] prop
    is read from and a supplied [setOpen] prop writes to. *)
Record Store : Type := {
  openState : bool;
  callerOpen : bool
}.

(** Calling a dispatch function with a plain value (the only form the
    file uses: [setOpen(true)], [setOpen(false)]). *)
Definition dispatch (d : Dispatch) (v : bool) (s : Store) : Store :=
  match d with
  | setOpenState => {| openState := v; callerOpen := callerOpen s |}
  | callerSetOpen => {| openState := openState s; callerOpen := v |}
  end.

(** Props of [Sidebar] / [SidebarProvider]; all three are optional. *)
Record SidebarProps : Type := {
  openProp : option bool;
  setOpenProp : option Dispatch;
  animateProp : option bool
}.

(** Which of the optional props the calling component passes. *)
Record Caller : Type := {
  passes_open : bool;
  passes_setOpen : bool;
  passes_animate : option bool
}.

(** The props of one render of [<Sidebar ...>] by that caller. *)
Definition Sidebar_props (c : Caller) (s : Store) : SidebarProps :=
  {| openProp := if passes_open c then Some (callerOpen s) else None;
     setOpenProp := if passes_setOpen c then Some callerSetOpen else None;
     animateProp := passes_animate c |}.

(** [SidebarProvider]: the context value of one render.
    [open = openProp ?? openState], [setOpen = setOpenProp ?? setOpenState],
    and the destructuring default [animate = true]. *)
Definition SidebarProvider (p : SidebarProps) (s : Store) : SidebarContextProps :=
  {| open := openProp p ?? openState s;
     setOpen := setOpenProp p ?? setOpenState;
     animate := animateProp p ?? true |}.

(** [Sidebar] forwards its props to [SidebarProvider] unchanged. *)
Definition Sidebar (c : Caller) (s : Store) : SidebarContextProps :=
  SidebarProvider (Sidebar_props c s) s.

(** The provider's cell starts at [useState(false)]; the caller's cell
    starts at whatever the caller chose. *)
Definition initial_store (caller_initial : bool) : Store :=
  {| openState := false; callerOpen := caller_initial |}.

(** *** The context lookup *)

(** The ancestors of the component that calls the hook, nearest first. *)
Inductive Frame : Type :=
| Provider (value : SidebarContextProps)
| Element (tag : string).

(** [useContext(SidebarContext)]: the value of the nearest enclosing
    provider, else the default given to [createContext], [undefined]. *)
Fixpoint useContext (ancestors : list Frame) : option SidebarContextProps :=
  match ancestors with
  | [] => None
  | Provider value :: _ => Some value
  | Element _ :: up => useContext up
  end.

(** [useSidebar]. *)
Definition useSidebar (ancestors : list Frame) : Result SidebarContextProps :=
  match useContext ancestors with
  | None => Throw "useSidebar must be used inside SidebarProvider"
  | Some context => Return context
  end.

Definition is_provider (f : Frame) : bool :=
  match f with
  | Provider _ => true
  | Element _ => false
  end.

(** The calling component sits in the subtree of some provider. *)
Definition inside_provider (ancestors : list Frame) : bool :=
  existsb is_provider ancestors.

(** *** DesktopSidebar *)

(** A pending [setTimeout] callback [() => animate && setOpen(false)]:
    the closure carries the [animate] and [setOpen] of the render that
    created it. *)
Record Timer : Type := {
  handle : nat;
  due : nat;
  cb_animate : bool;
  cb_setOpen : Dispatch
}.

(** The instance state of a mounted [DesktopSidebar]: the
    [hoverTimeout] ref. *)
Record DesktopState : Type := {
  hoverTimeout : option nat
}.

(** The instance state of a mounted [MobileSidebar]. *)
Record MobileState : Type := {
  menuOpen : bool
}.

(** Everything that evolves: the state cells, the clock in milliseconds,
    the timer queue of the runtime (oldest first), and the mounted
    instances. *)
Record World : Type := {
  store : Store;
  clock : nat;
  nextHandle : nat;
  pending : list Timer;
  desktop : option DesktopState;
  mobile : option MobileState
}.

Definition with_store (w : World) (s : Store) : World :=
  {| store := s; clock := clock w; nextHandle := nextHandle w;
     pending := pending w; desktop := desktop w; mobile := mobile w |}.

(** [style={{ width: animate ? (open ? 260 : 80) : 260 }}] *)
Definition width (context : SidebarContextProps) : Z :=
  (if animate context then (if open context then 260 else 80) else 260)%Z.

(** [onMouseEnter={() => animate && setOpen(true)}] *)
Definition onMouseEnter (context : SidebarContextProps) (w : World) : World :=
  if animate context
  then with_store w (dispatch (setOpen context) true (store w))
  else w.

Definition collapse_delay : nat := 120.

(** What [setTimeout(() => animate && setOpen(false), 120)] puts in the
    queue when called from the render with that context. *)
Definition collapse_timer (context : SidebarContextProps) (w : World) : Timer :=
  {| handle := nextHandle w;
     due := clock w + collapse_delay;
     cb_animate := animate context;
     cb_setOpen := setOpen context |}.

(** [onMouseLeave={() => (hoverTimeout.current =
      setTimeout(() => animate && setOpen(false), 120))}] *)
Definition onMouseLeave (context : SidebarContextProps) (w : World) : World :=
  {| store := store w;
     clock := clock w;
     nextHandle := S (nextHandle w);
     pending := pending w ++ [collapse_timer context w];
     desktop := Some {| hoverTimeout := Some (nextHandle w) |};
     mobile := mobile w |}.

(** Running one timer callback: [animate && setOpen(false)]. *)
Definition fire (t : Timer) (s : Store) : Store :=
  if cb_animate t then dispatch (cb_setOpen t) false s else s.

Definition is_due (now : nat) (t : Timer) : bool := due t <=? now.

(** [ms] milliseconds go by: every timer whose delay has elapsed runs,
    oldest first (all delays are equal, so queue order is due order), and
    leaves the queue. *)
Definition elapse (ms : nat) (w : World) : World :=
  let now := clock w + ms in
  {| store := fold_left (fun s t => fire t s) (filter (is_due now) (pending w)) (store w);
     clock := now;
     nextHandle := nextHandle w;
     pending := filter (fun t => negb (is_due now t)) (pending w);
     desktop := desktop w;
     mobile := mobile w |}.

(** Unmounting [DesktopSidebar]: the component registers no effect and
    hence no cleanup, so only the instance goes away. *)
Definition unmount_desktop (w : World) : World :=
  {| store := store w; clock := clock w; nextHandle := nextHandle w;
     pending := pending w; desktop := None; mobile := mobile w |}.

Inductive Event : Type :=
| MouseEnter
| MouseLeave
| Elapse (ms : nat)
| Unmount.

(** Pointer events reach the handlers of the current render only while
    the element is mounted; time passes either way. *)
Definition step (c : Caller) (w : World) (e : Event) : World :=
  match e with
  | MouseEnter =>
      match desktop w with
      | Some _ => onMouseEnter (Sidebar c (store w)) w
      | None => w
      end
  | MouseLeave =>
      match desktop w with
      | Some _ => onMouseLeave (Sidebar c (store w)) w
      | None => w
      end
  | Elapse ms => elapse ms w
  | Unmount => unmount_desktop w
  end.

Definition run (c : Caller) (w : World) (es : list Event) : World :=
  fold_left (step c) es w.

(** The shared flag as every consumer of the context sees it. *)
Definition shared_open (c : Caller) (w : World) : bool :=
  open (Sidebar c (store w)).

(** A freshly mounted desktop sidebar. *)
Definition mounted_desktop (s : Store) : World :=
  {| store := s; clock := 0; nextHandle := 0; pending := [];
     desktop := Some {| hoverTimeout := None |}; mobile := None |}.

(** *** MobileSidebar *)

Inductive Icon : Type :=
| X
| Menu.

(** What one render of [MobileSidebar] closes over and shows: the value
    its click handler will pass to [setMenuOpen] ([!menuOpen], computed
    from the [menuOpen] of that render), the button's icon, and whether
    the drawer is in the tree. *)
Record MobileView : Type := {
  onClick_value : bool;
  icon : Icon;
  drawer : bool
}.

Definition MobileSidebar (m : MobileState) : MobileView :=
  {| onClick_value := negb (menuOpen m);
     icon := if menuOpen m then X else Menu;
     drawer := menuOpen m |}.

(** Mounting: [useState(false)], and once the first render is committed
    the effect [setOpen(false)] runs with the [setOpen] of the context.
    (Its dependency [setOpen] keeps the same identity for a given
    caller, so the effect runs on mount only.) *)
Definition mount_mobile (c : Caller) (w : World) : World :=
  let context := Sidebar c (store w) in
  {| store := dispatch (setOpen context) false (store w);
     clock := clock w; nextHandle := nextHandle w; pending := pending w;
     desktop := desktop w;
     mobile := Some {| menuOpen := false |} |}.

(** [onClick={() => setMenuOpen(!menuOpen)}]; a click is a discrete
    event, so the component has re-rendered before the next one. *)
Definition click_menu (w : World) : World :=
  match mobile w with
  | Some m =>
      {| store := store w; clock := clock w; nextHandle := nextHandle w;
         pending := pending w; desktop := desktop w;
         mobile := Some {| menuOpen := onClick_value (MobileSidebar m) |} |}
  | None => w
  end.

(** Unmounting drops the [useState] cell; the effect has no cleanup. *)
Definition unmount_mobile (w : World) : World :=
  {| store := store w; clock := clock w; nextHandle := nextHandle w;
     pending := pending w; desktop := desktop w; mobile := None |}.

Inductive MobileEvent : Type :=
| MountMobile
| ClickMenu
| UnmountMobile.

Definition mobile_step (c : Caller) (w : World) (e : MobileEvent) : World :=
  match e with
  | MountMobile =>
      match mobile w with
      | Some _ => w
      | None => mount_mobile c w
      end
  | ClickMenu => click_menu w
  | UnmountMobile => unmount_mobile w
  end.

Definition mobile_run (c : Caller) (w : World) (es : list MobileEvent) : World :=
  fold_left (mobile_step c) es w.

(** A world in which nothing of the sidebar body is mounted yet. *)
Definition unmounted (s : Store) : World :=
  {| store := s; clock := 0; nextHandle := 0; pending := [];
     desktop := None; mobile := None |}.

End Sidebar.

(** ** ScrollReveal *)
Module Reveal.

(** The two entries of [variants]. *)
Inductive Variant : Type :=
| hidden
| visible.

(** The viewport hook as [ScrollReveal] uses it: a state, the [inView]
    flag it returns on each render, and its reaction to one observer
    callback (the argument says whether the tracked element is now
    inside the viewport past the threshold). *)
Record Hook (O : Type) : Type := {
  hook_init : O;
  hook_inView : O -> bool;
  hook_step : O -> bool -> O
}.

(** The state of [useInView]: the flag and whether the element is still
    being observed. *)
Record InViewState : Type := {
  inView : bool;
  observing : bool
}.

(** Modelled from the spec: [useInView] belongs to the external package
    react-intersection-observer and is not in the repository.  The spec
    describes the flag as derived from viewport intersection, false until
    the content is seen, captured once ([triggerOnce]) and never
    reverted: the first callback that reports the element inside sets
    the flag and stops the observation. *)
Definition useInView_triggerOnce : Hook InViewState :=
  {| hook_init := {| inView := false; observing := true |};
     hook_inView := inView;
     hook_step := fun o inside =>
       if observing o
       then {| inView := inside; observing := negb inside |}
       else o |}.

Section Component.
Variable O : Type.
Variable useInView : Hook O.

(** The instance: the hook's state and the variant the animation
    controls last started ([initial="hidden"]). *)
Record RevealState : Type := {
  observer : O;
  controls : Variant
}.

(** The body of the effect: [if (inView) controls.start("visible")]. *)
Definition effect (inView_now : bool) (current : Variant) : Variant :=
  if inView_now then visible else current.

(** Mount: first render with [initial="hidden"], then the effect. *)
Definition mount : RevealState :=
  {| observer := hook_init useInView;
     controls := effect (hook_inView useInView (hook_init useInView)) hidden |}.

(** One observer callback: the hook updates, the component re-renders,
    and the effect runs again when its dependency [inView] changed. *)
Definition ScrollReveal (st : RevealState) (inside : bool) : RevealState :=
  let o' := hook_step useInView (observer st) inside in
  let was := hook_inView useInView (observer st) in
  let now := hook_inView useInView o' in
  {| observer := o';
     controls := if Bool.eqb was now then controls st
                 else effect now (controls st) |}.

Definition reveal_run (st : RevealState) (es : list bool) : RevealState :=
  fold_left ScrollReveal es st.

(** The animation state after each event, the starting one first. *)
Fixpoint trace (st : RevealState) (es : list bool) : list Variant :=
  match es with
  | [] => [controls st]
  | e :: es' => controls st :: trace (ScrollReveal st e) es'
  end.
End Component.

(** Number of adjacent pairs [from, to] in a trace. *)
Definition is_variant (a b : Variant) : bool :=
  match a, b with
  | hidden, hidden | visible, visible => true
  | _, _ => false
  end.

Fixpoint transitions (from to : Variant) (l : list Variant) : nat :=
  match l with
  | a :: (b :: _) as rest =>
      (if is_variant a from && is_variant b to then 1 else 0)
      + transitions from to rest
  | _ => 0
  end.

End Reveal.

(** ** The flags and their values when nothing is supplied *)

Inductive Flag : Type :=
| flag_open
| flag_animate
| flag_menuOpen
| flag_inView.

(** A caller that passes none of the optional props. *)
Definition no_props : Sidebar.Caller :=
  {| Sidebar.passes_open := false;
     Sidebar.passes_setOpen := false;
     Sidebar.passes_animate := None |}.

(** The value each flag has right after mount under [no_props]. *)
Definition default_value (f : Flag) : bool :=
  match f with
  | flag_open =>
      Sidebar.open (Sidebar.Sidebar no_props (Sidebar.initial_store false))
  | flag_animate =>
      Sidebar.animate (Sidebar.Sidebar no_props (Sidebar.initial_store false))
  | flag_menuOpen =>
      match Sidebar.mobile
              (Sidebar.mount_mobile no_props
                 (Sidebar.unmounted (Sidebar.initial_store false))) with
      | Some m => Sidebar.menuOpen m
      | None => true
      end
  | flag_inView =>
      Reveal.hook_inView Reveal.useInView_triggerOnce
        (Reveal.observer (Reveal.mount Reveal.useInView_triggerOnce))
  end.

Import Sidebar.

(** The context's setter writes the cell the context's [open] is read
    from: the provider is uncontrolled, or the caller passes the pair. *)
Definition setter_owns_flag (c : Caller) : bool :=
  Bool.eqb (passes_open c) (passes_setOpen c).

(** A caller that passes [open] but no [setOpen]. *)
Definition open_only : Caller :=
  {| passes_open := true; passes_setOpen := false; passes_animate := None |}.

(** A caller that passes the controlled pair [open] and [setOpen]. *)
Definition controlled_pair : Caller :=
  {| passes_open := true; passes_setOpen := true; passes_animate := None |}.

(** With [triggerOnce], a flag that is set means the observation has
    stopped. *)
Definition latched (o : Reveal.InViewState) : Prop :=
  Reveal.inView o = true -> Reveal.observing o = false.

(** What holds of every state of [ScrollReveal] reached from its mount
    under [triggerOnce]: the flag is latched and the animation state
    follows it. *)
Definition reveal_inv (st : Reveal.RevealState Reveal.InViewState) : Prop :=
  latched (Reveal.observer st)
  /\ Reveal.controls st
     = if Reveal.inView (Reveal.observer st) then Reveal.visible else Reveal.hidden.

(** ** The rest of sidebar.tsx *)

(** The animated style of the label inside a [SidebarLink]. *)
Record LabelStyle : Type := {
  label_opacity : Z;
  label_x : Z
}.

(** [SidebarLink]: [animate={{ opacity: animate ? (open ? 1 : 0) : 1,
    x: animate ? (open ? 0 : -12) : 0 }}] on the label. *)
Definition SidebarLink (context : SidebarContextProps) : LabelStyle :=
  {| label_opacity := (if animate context then (if open context then 1 else 0) else 1)%Z;
     label_x := (if animate context then (if open context then 0 else -12) else 0)%Z |}.

(** [SidebarBody] renders [DesktopSidebar] and [MobileSidebar] side by
    side; the class names decide which one shows, so both are mounted
    whatever the viewport.  After the first render is committed the only
    effect of the two, the one of [MobileSidebar], runs. *)
Definition SidebarBody (c : Caller) (s : Store) : World :=
  mount_mobile c (mounted_desktop s).

Definition is_enter (e : Event) : bool :=
  match e with
  | MouseEnter => true
  | _ => false
  end.

Definition is_leave (e : Event) : bool :=
  match e with
  | MouseLeave => true
  | _ => false
  end.

Definition is_pointer (e : Event) : bool := is_enter e || is_leave e.

(** The timers in the queue are those of the last 120 ms, oldest first. *)
Definition queue_inv (w : World) : Prop :=
  Forall (fun t => clock w < due t <= clock w + collapse_delay) (pending w)
  /\ StronglySorted (fun a b => due a <= due b) (pending w).

(** The handles in the queue are distinct and were all handed out already;
    the [hoverTimeout] ref of a mounted [DesktopSidebar] holds the one
    handed out last, if any was. *)
Definition handles_inv (w : World) : Prop :=
  NoDup (map handle (pending w))
  /\ Forall (fun t => handle t < nextHandle w) (pending w)
  /\ match desktop w with
     | Some d =>
         match hoverTimeout d with
         | Some h => nextHandle w = S h
         | None => nextHandle w = 0
         end
     | None => True
     end.

(** * Properties *)

(** ** The context accessor *)

Lemma useContext_outside (ancestors : list Frame) :
  inside_provider ancestors = false -> useContext ancestors = None.
Proof.
  induction ancestors as [|f up IH]; simpl; [reflexivity|].
  destruct f as [value|tag]; simpl; [discriminate | exact IH].
Qed.

Lemma useContext_nearest (tags : list string) (value : SidebarContextProps)
      (up : list Frame) :
  useContext (map Element tags ++ Provider value :: up) = Some value.
Proof.
  induction tags as [|t tags IH]; simpl; [reflexivity | exact IH].
Qed.

Lemma inside_provider_nearest (ancestors : list Frame) :
  inside_provider ancestors = true ->
  exists tags value up, ancestors = map Element tags ++ Provider value :: up.
Proof.
  induction ancestors as [|f rest IH]; simpl; [discriminate|].
  destruct f as [value|tag]; simpl.
  - intros _. exists [], value, rest. reflexivity.
  - intros H. destruct (IH H) as (tags & value & up & ->).
    exists (tag :: tags), value, up. reflexivity.
Qed.

(** C2. Outside every [SidebarProvider] subtree [useSidebar] throws the
    error "useSidebar must be used inside SidebarProvider" and returns no
    context value at all; inside a provider subtree it returns the value of
    the nearest enclosing provider, which under [<Sidebar>] is the
    [{open, setOpen, animate}] record built by [SidebarProvider]. *)
Theorem useSidebar_throws_outside_returns_inside :
  (forall ancestors,
      inside_provider ancestors = false ->
      useSidebar ancestors = Throw "useSidebar must be used inside SidebarProvider"
      /\ forall context, useSidebar ancestors <> Return context)
  /\ (forall ancestors,
      inside_provider ancestors = true ->
      exists tags value up,
        ancestors = map Element tags ++ Provider value :: up
        /\ useSidebar ancestors = Return value)
  /\ (forall c s tags up,
      useSidebar (map Element tags ++ Provider (Sidebar c s) :: up)
      = Return {| open := open (Sidebar c s);
                  setOpen := setOpen (Sidebar c s);
                  animate := animate (Sidebar c s) |}).
Proof.
  split; [|split].
  - intros ancestors Hout. unfold useSidebar.
    rewrite (useContext_outside _ Hout). split; [reflexivity | discriminate].
  - intros ancestors Hin.
    destruct (inside_provider_nearest _ Hin) as (tags & value & up & ->).
    exists tags, value, up. split; [reflexivity|].
    unfold useSidebar. now rewrite useContext_nearest.
  - intros c s tags up. unfold useSidebar. now rewrite useContext_nearest.
Qed.

Lemma useSidebar_throws_outside_returns_inside_witness :
  (inside_provider [Element "main"; Element "nav"] = false
   /\ useSidebar [Element "main"; Element "nav"]
      = Throw "useSidebar must be used inside SidebarProvider")
  /\ (inside_provider
        [Element "a"; Provider (Sidebar no_props (initial_store false))] = true
      /\ exists value,
          useSidebar [Element "a"; Provider (Sidebar no_props (initial_store false))]
          = Return value).
Proof.
  destruct useSidebar_throws_outside_returns_inside as (Hout & Hin & _).
  split.
  - split; [reflexivity|].
    apply (Hout [Element "main"; Element "nav"]). reflexivity.
  - split; [reflexivity|].
    destruct (Hin [Element "a"; Provider (Sidebar no_props (initial_store false))]
                  eq_refl) as (tags & value & up & _ & Hret).
    exists value. exact Hret.
Defined.

(** ** Width of the desktop sidebar *)

(** C4. With [animate = false] the rendered width is 260 for both values
    of [open]; with [animate = true] it is 260 when open and 80 when
    closed. *)
Theorem width_constant_without_animate :
  forall (o : bool) (d : Dispatch),
    width {| open := o; setOpen := d; animate := false |} = 260%Z
    /\ width {| open := o; setOpen := d; animate := true |}
       = (if o then 260 else 80)%Z.
Proof.
  intros o d. split; reflexivity.
Qed.

(** ** The mobile drawer *)

(** C5. Every mount of [MobileSidebar] starts with [menuOpen = false] and
    the drawer out of the tree, whatever the caller passes to the provider
    and whatever the state cells hold, also on a mount that follows earlier
    clicks and an unmount. *)
Theorem mobile_mount_menu_closed :
  forall (c : Caller) (w : World),
    mobile (mount_mobile c w) = Some {| menuOpen := false |}
    /\ drawer (MobileSidebar {| menuOpen := false |}) = false
    /\ forall es,
        mobile (mobile_step c (unmount_mobile (mobile_run c w es)) MountMobile)
        = Some {| menuOpen := false |}.
Proof.
  intros c w. repeat split.
Qed.

Lemma mobile_step_pending (c : Caller) (w : World) (e : MobileEvent) :
  pending (mobile_step c w e) = pending w.
Proof.
  destruct e; simpl; try reflexivity.
  - destruct (mobile w); reflexivity.
  - unfold click_menu. destruct (mobile w); reflexivity.
Qed.

Lemma mobile_run_pending (c : Caller) (es : list MobileEvent) :
  forall w, pending (mobile_run c w es) = pending w.
Proof.
  unfold mobile_run.
  induction es as [|e es IH]; intros w; simpl; [reflexivity|].
  rewrite IH. apply mobile_step_pending.
Qed.

(** C8. A click on the menu button of a mounted [MobileSidebar] in state
    [b] leaves it in state [negb b] and changes nothing else, so two
    clicks in a row restore the world; after unmount no instance state is
    left, the component has put no timer in the queue, and the next mount
    starts from [menuOpen = false] again. *)
Theorem menu_click_flips_once :
  forall (c : Caller) (w : World) (m : MobileState),
    mobile w = Some m ->
    mobile (mobile_step c w ClickMenu) = Some {| menuOpen := negb (menuOpen m) |}
    /\ store (mobile_step c w ClickMenu) = store w
    /\ mobile_run c w [ClickMenu; ClickMenu] = w
    /\ forall es,
        let gone := mobile_step c (mobile_run c w es) UnmountMobile in
        mobile gone = None
        /\ pending gone = pending w
        /\ mobile (mobile_step c gone MountMobile) = Some {| menuOpen := false |}.
Proof.
  intros c w m Hm. split; [|split; [|split]].
  - simpl. unfold click_menu. rewrite Hm. reflexivity.
  - simpl. unfold click_menu. rewrite Hm. reflexivity.
  - destruct w as [s k n p d mo]. simpl in Hm. subst mo.
    destruct m as [b]. destruct b; reflexivity.
  - intros es gone. subst gone. repeat split.
    simpl. apply mobile_run_pending.
Qed.

Lemma menu_click_flips_once_witness :
  let w := mount_mobile no_props (unmounted (initial_store false)) in
  mobile w = Some {| menuOpen := false |}
  /\ mobile (mobile_step no_props w ClickMenu) = Some {| menuOpen := true |}
  /\ mobile_run no_props w [ClickMenu; ClickMenu] = w.
Proof.
  intros w.
  destruct (menu_click_flips_once no_props w (m := {| menuOpen := false |}) eq_refl)
    as (Hflip & _ & Htwice & _).
  split; [reflexivity|]. split; [exact Hflip | exact Htwice].
Defined.

Lemma dispatch_shared_open (c : Caller) (v : bool) (s : Store) :
  setter_owns_flag c = true ->
  open (Sidebar c (dispatch (setOpen (Sidebar c s)) v s)) = v.
Proof.
  destruct c as [po ps pa]. unfold setter_owns_flag. simpl.
  destruct po, ps; simpl; try discriminate; reflexivity.
Qed.

(** C10, as stated, fails: under [<Sidebar open={true}>] without a
    [setOpen] prop, mounting [MobileSidebar] calls the provider's own
    [setOpenState(false)], while the shared flag is read from the prop and
    stays [true]. *)
Lemma mobile_mount_reset_counterexample :
  shared_open open_only
    (mount_mobile open_only (unmounted (initial_store true))) = true
  /\ ~ (forall c w, shared_open c (mount_mobile c w) = false).
Proof.
  split; [reflexivity|].
  intros H.
  specialize (H open_only (unmounted (initial_store true))).
  discriminate H.
Qed.

(** C10, amended. Every mount of [MobileSidebar] calls the context's
    [setOpen] with [false], with no condition on it; whenever that setter
    writes the state that [open] is read from (an uncontrolled provider, or
    a caller-supplied [open]/[setOpen] pair), the shared flag is [false]
    after the mount, also when it was [true] before. *)
Theorem mobile_mount_resets_shared_open :
  forall (c : Caller) (w : World),
    store (mount_mobile c w)
    = dispatch (setOpen (Sidebar c (store w))) false (store w)
    /\ (setter_owns_flag c = true -> shared_open c (mount_mobile c w) = false).
Proof.
  intros c w. split; [reflexivity|].
  intros Hown. unfold shared_open, mount_mobile. simpl.
  apply (dispatch_shared_open c false (store w) Hown).
Qed.

Lemma mobile_mount_resets_shared_open_witness :
  let w := unmounted (initial_store true) in
  setter_owns_flag controlled_pair = true
  /\ shared_open controlled_pair w = true
  /\ shared_open controlled_pair (mount_mobile controlled_pair w) = false.
Proof.
  intros w. split; [reflexivity|]. split; [reflexivity|].
  apply (mobile_mount_resets_shared_open controlled_pair w). reflexivity.
Defined.

(** ** Hovering the desktop sidebar *)

Lemma animate_static (c : Caller) (s s' : Store) :
  animate (Sidebar c s) = animate (Sidebar c s').
Proof. reflexivity. Qed.

Lemma setOpen_static (c : Caller) (s s' : Store) :
  setOpen (Sidebar c s) = setOpen (Sidebar c s').
Proof. reflexivity. Qed.

Lemma fire_inert (t : Timer) (s : Store) :
  cb_animate t = false -> fire t s = s.
Proof. unfold fire. intros ->. reflexivity. Qed.

Lemma fire_all_inert (l : list Timer) (s : Store) :
  Forall (fun t => cb_animate t = false) l ->
  fold_left (fun s t => fire t s) l s = s.
Proof.
  induction 1 as [|t l Ht _ IH]; simpl; [reflexivity|].
  rewrite (fire_inert t s Ht). exact IH.
Qed.

Lemma Forall_filter_keep {A : Type} (P : A -> Prop) (f : A -> bool) (l : list A) :
  Forall P l -> Forall P (filter f l).
Proof.
  induction 1 as [|a l Ha _ IH]; simpl; [constructor|].
  destruct (f a); [constructor; assumption | assumption].
Qed.

Lemma step_without_animate (c : Caller) (w : World) (e : Event) :
  animate (Sidebar c (store w)) = false ->
  Forall (fun t => cb_animate t = false) (pending w) ->
  store (step c w e) = store w
  /\ Forall (fun t => cb_animate t = false) (pending (step c w e)).
Proof.
  intros Hanim Hinert. destruct e as [| |ms|]; simpl.
  - destruct (desktop w); [|split; [reflexivity | assumption]].
    unfold onMouseEnter. rewrite Hanim. split; [reflexivity | assumption].
  - destruct (desktop w); [|split; [reflexivity | assumption]].
    simpl. split; [reflexivity|].
    apply Forall_app. split; [assumption|].
    constructor; [exact Hanim | constructor].
  - split.
    + apply fire_all_inert. apply Forall_filter_keep. assumption.
    + apply Forall_filter_keep. assumption.
  - split; [reflexivity | assumption].
Qed.

(** C9. With [animate = false], and no timer left over from a render with
    [animate = true], no sequence of pointer-enter, pointer-leave, elapsed
    time and unmount changes the state cells; the shared [open] flag keeps
    its value. *)
Theorem hover_without_animate_keeps_open :
  forall (c : Caller) (es : list Event) (w : World),
    animate (Sidebar c (store w)) = false ->
    Forall (fun t => cb_animate t = false) (pending w) ->
    store (run c w es) = store w
    /\ shared_open c (run c w es) = shared_open c w.
Proof.
  intros c es. unfold run, shared_open.
  induction es as [|e es IH]; intros w Hanim Hinert; simpl; [split; reflexivity|].
  destruct (step_without_animate c w e Hanim Hinert) as [Hstore Hpend].
  destruct (IH (step c w e)) as [IHs _].
  - rewrite Hstore. exact Hanim.
  - exact Hpend.
  - rewrite IHs, Hstore. split; reflexivity.
Qed.

Lemma hover_without_animate_keeps_open_witness :
  let c := {| passes_open := false; passes_setOpen := false;
              passes_animate := Some false |} in
  let w := mounted_desktop (initial_store false) in
  animate (Sidebar c (store w)) = false
  /\ shared_open c (run c w [MouseEnter; MouseLeave; Elapse 200; MouseEnter])
     = shared_open c w.
Proof.
  intros c w. split; [reflexivity|].
  apply (hover_without_animate_keeps_open c
           [MouseEnter; MouseLeave; Elapse 200; MouseEnter] w).
  - reflexivity.
  - constructor.
Defined.

Lemma fire_keeps_closed (c : Caller) (t : Timer) (s : Store) :
  open (Sidebar c s) = false -> open (Sidebar c (fire t s)) = false.
Proof.
  destruct c as [po ps pa], t as [h d a f]. unfold fire. simpl.
  destruct a; [|trivial]. destruct po, f; simpl; trivial.
Qed.

Lemma fire_all_keeps_closed (c : Caller) (l : list Timer) :
  forall s, open (Sidebar c s) = false ->
            open (Sidebar c (fold_left (fun s t => fire t s) l s)) = false.
Proof.
  induction l as [|t l IH]; intros s Hs; simpl; [exact Hs|].
  apply IH. apply fire_keeps_closed. exact Hs.
Qed.

Lemma fire_own_timer (c : Caller) (t : Timer) (s : Store) :
  setter_owns_flag c = true ->
  cb_animate t = true ->
  cb_setOpen t = setOpen (Sidebar c s) ->
  open (Sidebar c (fire t s)) = false.
Proof.
  intros Hown Ha Hf. unfold fire. rewrite Ha, Hf.
  apply dispatch_shared_open. exact Hown.
Qed.

(** The callback scheduled by a pointer-leave closes the sidebar when it
    is the last one due. *)
Lemma fire_due_with_own_last (c : Caller) (now : nat) (l : list Timer)
      (t : Timer) (s : Store) :
  setter_owns_flag c = true ->
  cb_animate t = true ->
  cb_setOpen t = setOpen (Sidebar c s) ->
  is_due now t = true ->
  open (Sidebar c (fold_left (fun s t => fire t s)
                             (filter (is_due now) (l ++ [t])) s)) = false.
Proof.
  intros Hown Ha Hf Hdue.
  rewrite filter_app, fold_left_app. simpl. rewrite Hdue. simpl.
  apply fire_own_timer; assumption.
Qed.

Lemma collapse_timer_not_due (context : SidebarContextProps) (w : World) (ms : nat) :
  ms < collapse_delay ->
  is_due (clock w + ms) (collapse_timer context w) = false.
Proof.
  intros Hms. unfold is_due. simpl. apply Nat.leb_gt. lia.
Qed.

Lemma collapse_timer_due (context : SidebarContextProps) (w : World) (now : nat) :
  clock w + collapse_delay <= now ->
  is_due now (collapse_timer context w) = true.
Proof.
  intros Hms. unfold is_due. simpl. apply Nat.leb_le. exact Hms.
Qed.

Lemma pending_after_leave (context : SidebarContextProps) (w : World) (ms : nat) :
  ms < collapse_delay ->
  pending (elapse ms (onMouseLeave context w))
  = filter (fun t => negb (is_due (clock w + ms) t)) (pending w)
    ++ [collapse_timer context w].
Proof.
  intros Hms. unfold elapse, onMouseLeave. cbn [pending clock].
  rewrite filter_app. cbn [filter].
  rewrite (collapse_timer_not_due context w Hms). reflexivity.
Qed.

(** C1, on the code. Under [animate = true] with a setter that owns the
    flag: after a pointer-leave, a pointer-enter that comes [ms < 120]
    milliseconds later sets [open = true] at once, but the collapse
    scheduled by the leave is still in the timer queue, and when the rest
    of the 120 ms has gone by it runs and the sidebar ends up closed:
    nothing ever calls [clearTimeout] on [hoverTimeout.current]. *)
Theorem reenter_leaves_collapse_pending :
  forall (c : Caller) (w : World) (ms : nat),
    desktop w <> None ->
    animate (Sidebar c (store w)) = true ->
    setter_owns_flag c = true ->
    ms < collapse_delay ->
    let entered := run c w [MouseLeave; Elapse ms; MouseEnter] in
    shared_open c entered = true
    /\ In (collapse_timer (Sidebar c (store w)) w) (pending entered)
    /\ shared_open c (run c entered [Elapse (collapse_delay - ms)]) = false.
Proof.
  intros c w ms Hmounted Hanim Hown Hms.
  destruct (desktop w) as [d|] eqn:Hd; [clear Hmounted | contradiction].
  unfold run, shared_open. cbn [fold_left step]. rewrite Hd.
  set (context := Sidebar c (store w)) in *.
  set (left := elapse ms (onMouseLeave context w)).
  assert (Hleft : desktop left = Some {| hoverTimeout := Some (nextHandle w) |})
    by reflexivity.
  rewrite Hleft. unfold onMouseEnter.
  rewrite (animate_static c (store left) (store w)). fold context. rewrite Hanim.
  cbn [store pending with_store clock elapse].
  subst left. rewrite (pending_after_leave context w Hms).
  split; [|split].
  - apply dispatch_shared_open. exact Hown.
  - apply in_or_app. right. left. reflexivity.
  - apply fire_due_with_own_last; try assumption; try reflexivity.
    apply collapse_timer_due. cbn [clock elapse onMouseLeave]. lia.
Qed.

Lemma reenter_leaves_collapse_pending_witness :
  let w := run no_props (mounted_desktop (initial_store false)) [MouseEnter] in
  shared_open no_props w = true
  /\ shared_open no_props
       (run no_props w [MouseLeave; Elapse 50; MouseEnter]) = true
  /\ shared_open no_props
       (run no_props w [MouseLeave; Elapse 50; MouseEnter; Elapse 70]) = false.
Proof.
  intros w.
  assert (Hm : desktop w <> None) by discriminate.
  assert (Hlt : 50 < collapse_delay) by (unfold collapse_delay; lia).
  destruct (reenter_leaves_collapse_pending no_props w Hm eq_refl eq_refl Hlt)
    as (Hopen & _ & Hclosed).
  split; [reflexivity|]. split; [exact Hopen | exact Hclosed].
Defined.

(** C3, on the code. Under [animate = true] with a setter that owns the
    flag and the sidebar open: when [DesktopSidebar] is unmounted after a
    pointer-leave, the scheduled collapse stays in the timer queue, and
    once the 120 ms have gone by it runs [setOpen(false)] although the view
    is gone: the component has no cleanup that clears the timer. *)
Theorem unmount_leaves_collapse_pending :
  forall (c : Caller) (w : World),
    desktop w <> None ->
    animate (Sidebar c (store w)) = true ->
    setter_owns_flag c = true ->
    shared_open c w = true ->
    let removed := run c w [MouseLeave; Unmount] in
    desktop removed = None
    /\ shared_open c removed = true
    /\ In (collapse_timer (Sidebar c (store w)) w) (pending removed)
    /\ shared_open c (run c removed [Elapse collapse_delay]) = false.
Proof.
  intros c w Hmounted Hanim Hown Hopen.
  destruct (desktop w) as [d|] eqn:Hd; [clear Hmounted | contradiction].
  unfold run. cbn [fold_left step]. rewrite Hd.
  set (context := Sidebar c (store w)) in *.
  split; [reflexivity|]. split; [exact Hopen|]. split.
  - cbn [pending unmount_desktop onMouseLeave].
    apply in_or_app. right. left. reflexivity.
  - unfold shared_open. cbn [store elapse pending unmount_desktop onMouseLeave clock].
    apply fire_due_with_own_last; try assumption; try reflexivity.
    apply collapse_timer_due. lia.
Qed.

Lemma unmount_leaves_collapse_pending_witness :
  let w := run no_props (mounted_desktop (initial_store false)) [MouseEnter] in
  desktop (run no_props w [MouseLeave; Unmount]) = None
  /\ shared_open no_props (run no_props w [MouseLeave; Unmount]) = true
  /\ shared_open no_props
       (run no_props w [MouseLeave; Unmount; Elapse 120]) = false.
Proof.
  intros w.
  assert (Hm : desktop w <> None) by discriminate.
  destruct (unmount_leaves_collapse_pending no_props w Hm eq_refl eq_refl eq_refl)
    as (Hgone & Hopen & _ & Hclosed).
  split; [exact Hgone|]. split; [exact Hopen | exact Hclosed].
Defined.

(** ** The reveal wrapper *)

Lemma transitions_step (from to a b : Reveal.Variant) (l : list Reveal.Variant) :
  Reveal.transitions from to (a :: b :: l)
  = (if Reveal.is_variant a from && Reveal.is_variant b to then 1 else 0)
    + Reveal.transitions from to (b :: l).
Proof. reflexivity. Qed.

Section RevealAnyHook.
Import Reveal.
Variable O : Type.
Variable useInView : Hook O.

(** Whatever the hook reports, the only variant the component ever
    starts is [visible]. *)
Lemma ScrollReveal_keeps_visible (st : RevealState O) (inside : bool) :
  controls st = visible -> controls (ScrollReveal useInView st inside) = visible.
Proof.
  intros Hv. unfold ScrollReveal, effect. simpl. rewrite Hv.
  destruct (Bool.eqb _ _); [reflexivity|].
  destruct (hook_inView _ _); reflexivity.
Qed.

Lemma reveal_run_keeps_visible (es : list bool) :
  forall st : RevealState O,
    controls st = visible -> controls (reveal_run useInView st es) = visible.
Proof.
  unfold reveal_run.
  induction es as [|e es IH]; intros st Hv; simpl; [exact Hv|].
  apply IH. apply ScrollReveal_keeps_visible. exact Hv.
Qed.

Lemma trace_head (st : RevealState O) (es : list bool) :
  exists rest, trace useInView st es = controls st :: rest.
Proof.
  destruct es as [|e es]; simpl; eexists; reflexivity.
Qed.

Lemma trace_visible_no_transition (from to : Variant) (es : list bool) :
  forall st : RevealState O,
    controls st = visible ->
    (from = hidden \/ to = hidden) ->
    transitions from to (trace useInView st es) = 0.
Proof.
  induction es as [|e es IH]; intros st Hv Hft; [reflexivity|].
  cbn [trace].
  pose proof (ScrollReveal_keeps_visible st e Hv) as Hv'.
  destruct (trace_head (ScrollReveal useInView st e) es) as [rest Hrest].
  specialize (IH _ Hv' Hft). rewrite Hrest in *.
  rewrite transitions_step, IH, Hv, Hv'.
  destruct Hft as [-> | ->]; [reflexivity|].
  destruct from; reflexivity.
Qed.

Lemma trace_never_reverts (es : list bool) :
  forall st : RevealState O,
    transitions visible hidden (trace useInView st es) = 0.
Proof.
  induction es as [|e es IH]; intros st; [reflexivity|].
  cbn [trace].
  destruct (trace_head (ScrollReveal useInView st e) es) as [rest Hrest].
  specialize (IH (ScrollReveal useInView st e)). rewrite Hrest in *.
  rewrite transitions_step, IH.
  destruct (controls st) eqn:Hc; [reflexivity|].
  rewrite (ScrollReveal_keeps_visible st e Hc). reflexivity.
Qed.

Lemma trace_reveals_at_most_once (es : list bool) :
  forall st : RevealState O,
    transitions hidden visible (trace useInView st es) <= 1.
Proof.
  induction es as [|e es IH]; intros st; [simpl; lia|].
  cbn [trace].
  destruct (trace_head (ScrollReveal useInView st e) es) as [rest Hrest].
  pose proof (IH (ScrollReveal useInView st e)) as IHst.
  pose proof (@trace_visible_no_transition hidden visible es
                (ScrollReveal useInView st e)) as Hafter.
  rewrite Hrest in *. rewrite transitions_step.
  destruct (controls st) eqn:Hc;
    destruct (controls (ScrollReveal useInView st e)) eqn:Hc';
    cbn [is_variant andb Nat.add].
  - exact IHst.
  - rewrite Hafter; [lia | reflexivity | left; reflexivity].
  - exact IHst.
  - exact IHst.
Qed.
End RevealAnyHook.

Import Reveal.

Lemma reveal_inv_mount : reveal_inv (mount useInView_triggerOnce).
Proof.
  split; [intros Hin; discriminate Hin | reflexivity].
Qed.

Lemma reveal_inv_step (st : RevealState InViewState) (inside : bool) :
  reveal_inv st -> reveal_inv (ScrollReveal useInView_triggerOnce st inside).
Proof.
  destruct st as [[iv ob] ctl]. unfold reveal_inv, latched. simpl.
  intros [Hlatch Hctl].
  destruct ob; simpl.
  - destruct iv; [specialize (Hlatch eq_refl); discriminate|].
    subst ctl. destruct inside; simpl; split; auto; discriminate.
  - rewrite eqb_reflx. split; assumption.
Qed.

Lemma reveal_inv_run (es : list bool) :
  forall st, reveal_inv st -> reveal_inv (reveal_run useInView_triggerOnce st es).
Proof.
  unfold reveal_run.
  induction es as [|e es IH]; intros st Hinv; simpl; [exact Hinv|].
  apply IH. apply reveal_inv_step. exact Hinv.
Qed.

Lemma inView_latched_step (st : RevealState InViewState) (inside : bool) :
  reveal_inv st ->
  inView (observer st) = true ->
  inView (observer (ScrollReveal useInView_triggerOnce st inside)) = true.
Proof.
  intros [Hlatch _] Hin. simpl. rewrite (Hlatch Hin). exact Hin.
Qed.

Lemma inView_latched_run (es : list bool) :
  forall st,
    reveal_inv st ->
    inView (observer st) = true ->
    inView (observer (reveal_run useInView_triggerOnce st es)) = true.
Proof.
  unfold reveal_run.
  induction es as [|e es IH]; intros st Hinv Hin; simpl; [exact Hin|].
  apply IH.
  - apply reveal_inv_step. exact Hinv.
  - apply inView_latched_step; assumption.
Qed.

(** C6. From mount, along every sequence of viewport callbacks, the
    animation state of [ScrollReveal] goes from [hidden] to [visible] at
    most once and never from [visible] to [hidden]; once [inView] is true
    (the wrapper is then [visible]) it stays true, and once the wrapper is
    [visible] it stays [visible], whatever the callbacks report next. *)
Theorem reveal_once_never_reverts :
  forall es1 es2 : list bool,
    let H := Reveal.useInView_triggerOnce in
    let before := Reveal.reveal_run H (Reveal.mount H) es1 in
    let after := Reveal.reveal_run H (Reveal.mount H) (es1 ++ es2) in
    Reveal.transitions Reveal.hidden Reveal.visible
      (Reveal.trace H (Reveal.mount H) (es1 ++ es2)) <= 1
    /\ Reveal.transitions Reveal.visible Reveal.hidden
         (Reveal.trace H (Reveal.mount H) (es1 ++ es2)) = 0
    /\ (Reveal.inView (Reveal.observer before) = true ->
        Reveal.controls before = Reveal.visible
        /\ Reveal.inView (Reveal.observer after) = true)
    /\ (Reveal.controls before = Reveal.visible ->
        Reveal.controls after = Reveal.visible).
Proof.
  intros es1 es2 H before after.
  assert (Hafter : after = Reveal.reveal_run H before es2).
  { subst before after. unfold Reveal.reveal_run. apply fold_left_app. }
  assert (Hinv : reveal_inv before).
  { apply reveal_inv_run. apply reveal_inv_mount. }
  split; [apply trace_reveals_at_most_once|].
  split; [apply trace_never_reverts|].
  split.
  - intros Hin. split.
    + destruct Hinv as [_ Hctl]. rewrite Hctl, Hin. reflexivity.
    + rewrite Hafter. apply inView_latched_run; assumption.
  - intros Hv. rewrite Hafter. apply reveal_run_keeps_visible. exact Hv.
Qed.

Lemma reveal_once_never_reverts_witness :
  let H := Reveal.useInView_triggerOnce in
  Reveal.inView (Reveal.observer
                   (Reveal.reveal_run H (Reveal.mount H) [false; true])) = true
  /\ Reveal.controls
       (Reveal.reveal_run H (Reveal.mount H) [false; true]) = Reveal.visible
  /\ Reveal.inView (Reveal.observer
                      (Reveal.reveal_run H (Reveal.mount H)
                         ([false; true] ++ [false; true; false]))) = true
  /\ Reveal.controls
       (Reveal.reveal_run H (Reveal.mount H)
          ([false; true] ++ [false; true; false])) = Reveal.visible.
Proof.
  intros H.
  destruct (reveal_once_never_reverts [false; true] [false; true; false])
    as (_ & _ & Hin & Hvis).
  destruct (Hin eq_refl) as [Hctl Hlatch].
  split; [reflexivity|]. split; [exact Hctl|].
  split; [exact Hlatch | exact (Hvis Hctl)].
Defined.

(** ** Values of the flags when nothing is supplied *)

(** C7, as stated, fails: [animate] is a boolean whose value is [true]
    when the caller does not pass it ([animate = true] in the parameter
    list of [SidebarProvider]). *)
Lemma default_animate_counterexample :
  default_value flag_animate = true
  /\ ~ (forall f : Flag, default_value f = false).
Proof.
  split; [reflexivity|].
  intros Hall. specialize (Hall flag_animate). discriminate Hall.
Qed.

(** C7, amended. Each of [open], [menuOpen] and [inView] is a boolean
    whose value is [false] when it is not supplied; [animate] is a boolean
    whose value is [true] when it is not supplied. *)
Theorem default_flag_values :
  forall f : Flag,
    default_value f = match f with
                      | flag_animate => true
                      | flag_open | flag_menuOpen | flag_inView => false
                      end.
Proof.
  intros f. destruct f; reflexivity.
Qed.

(** * Further properties of the components *)

(** ** Link labels and the body *)

(** X1. The label of a [SidebarLink] is fully shown (opacity 1, offset 0)
    exactly when the desktop sidebar is 260 wide, and fully hidden
    (opacity 0, offset -12) exactly when it is 80 wide; there is no other
    width. *)
Theorem label_follows_width :
  forall context : SidebarContextProps,
    (width context = 260%Z \/ width context = 80%Z)
    /\ (label_opacity (SidebarLink context) = 1%Z <-> width context = 260%Z)
    /\ (label_x (SidebarLink context) = 0%Z <-> width context = 260%Z)
    /\ (label_opacity (SidebarLink context) = 0%Z <-> width context = 80%Z)
    /\ (label_x (SidebarLink context) = (-12)%Z <-> width context = 80%Z).
Proof.
  intros [o d a]. unfold width, SidebarLink. simpl.
  destruct a, o; simpl;
    repeat split; try (intros Hne; discriminate Hne); auto.
Qed.

(** X2. When the context's setter owns the flag, a freshly mounted
    [SidebarBody] has both variants mounted, the drawer closed and the
    shared flag false whatever it was before: with [animate] the desktop
    sidebar starts 80 wide with hidden labels, also under a controlled
    pair whose [open] was true. *)
Theorem body_mount_starts_collapsed :
  forall (c : Caller) (s : Store),
    setter_owns_flag c = true ->
    let w := SidebarBody c s in
    desktop w = Some {| hoverTimeout := None |}
    /\ mobile w = Some {| menuOpen := false |}
    /\ pending w = []
    /\ shared_open c w = false
    /\ width (Sidebar c (store w))
       = (if animate (Sidebar c s) then 80 else 260)%Z
    /\ label_opacity (SidebarLink (Sidebar c (store w)))
       = (if animate (Sidebar c s) then 0 else 1)%Z.
Proof.
  intros c s Hown w.
  assert (Hclosed : open (Sidebar c (store w)) = false).
  { subst w. unfold SidebarBody, mount_mobile. cbn [store mounted_desktop].
    apply dispatch_shared_open. exact Hown. }
  repeat split; try exact Hclosed.
  - unfold width. rewrite Hclosed.
    rewrite (animate_static c (store w) s). reflexivity.
  - unfold SidebarLink. cbn [label_opacity]. rewrite Hclosed.
    rewrite (animate_static c (store w) s). reflexivity.
Qed.

Lemma body_mount_starts_collapsed_witness :
  let s := initial_store true in
  setter_owns_flag controlled_pair = true
  /\ width (Sidebar controlled_pair s) = 260%Z
  /\ width (Sidebar controlled_pair (store (SidebarBody controlled_pair s))) = 80%Z.
Proof.
  intros s. split; [reflexivity|]. split; [reflexivity|].
  destruct (body_mount_starts_collapsed controlled_pair s eq_refl)
    as (_ & _ & _ & _ & Hwidth & _).
  exact Hwidth.
Defined.

(** ** A setter that does not own the flag *)

Lemma dispatch_foreign (c : Caller) (v : bool) (s : Store) :
  setter_owns_flag c = false ->
  open (Sidebar c (dispatch (setOpen (Sidebar c s)) v s)) = open (Sidebar c s).
Proof.
  destruct c as [po ps pa]. unfold setter_owns_flag. simpl.
  destruct po, ps; simpl; try discriminate; reflexivity.
Qed.

Lemma fire_foreign (c : Caller) (t : Timer) (s : Store) :
  setter_owns_flag c = false ->
  cb_setOpen t = setOpen (Sidebar c s) ->
  open (Sidebar c (fire t s)) = open (Sidebar c s).
Proof.
  intros Hown Hf. unfold fire. destruct (cb_animate t); [|reflexivity].
  rewrite Hf. apply dispatch_foreign. exact Hown.
Qed.

Lemma fire_all_foreign (c : Caller) (l : list Timer) :
  forall s,
    setter_owns_flag c = false ->
    Forall (fun t => cb_setOpen t = setOpen (Sidebar c s)) l ->
    open (Sidebar c (fold_left (fun s t => fire t s) l s)) = open (Sidebar c s).
Proof.
  induction l as [|t l IH]; intros s Hown Hall; cbn [fold_left]; [reflexivity|].
  inversion Hall as [|t' l' Ht Hl]; subst.
  rewrite IH; [apply fire_foreign; assumption | exact Hown | exact Hl].
Qed.

Lemma step_foreign (c : Caller) (w : World) (e : Event) :
  setter_owns_flag c = false ->
  Forall (fun t => cb_setOpen t = setOpen (Sidebar c (store w))) (pending w) ->
  shared_open c (step c w e) = shared_open c w
  /\ Forall (fun t => cb_setOpen t = setOpen (Sidebar c (store w)))
            (pending (step c w e)).
Proof.
  intros Hown Hall. unfold shared_open. destruct e as [| |ms|]; simpl.
  - destruct (desktop w); [|split; [reflexivity | assumption]].
    unfold onMouseEnter. destruct (animate _); [|split; [reflexivity | assumption]].
    split; [|assumption]. apply (dispatch_foreign c true (store w) Hown).
  - destruct (desktop w); [|split; [reflexivity | assumption]].
    split; [reflexivity|]. cbn [pending onMouseLeave].
    apply Forall_app. split; [assumption|].
    constructor; [reflexivity | constructor].
  - split.
    + apply fire_all_foreign; [exact Hown|].
      apply Forall_filter_keep. exact Hall.
    + apply Forall_filter_keep. exact Hall.
  - split; [reflexivity | assumption].
Qed.

Lemma mobile_step_foreign (c : Caller) (w : World) (e : MobileEvent) :
  setter_owns_flag c = false ->
  shared_open c (mobile_step c w e) = shared_open c w.
Proof.
  intros Hown. unfold shared_open. destruct e; simpl.
  - destruct (mobile w); [reflexivity|].
    apply (dispatch_foreign c false (store w) Hown).
  - unfold click_menu. destruct (mobile w); reflexivity.
  - reflexivity.
Qed.

(** X3. When [open] is passed without [setOpen], or [setOpen] without
    [open], the context's setter writes a cell that [open] is not read
    from: no sequence of pointer events, elapsed time and unmount, and no
    sequence of mobile mounts, clicks and unmounts, changes the shared
    flag (given that the timers in the queue carry that same setter). *)
Theorem foreign_setter_freezes_open :
  forall (c : Caller) (es : list Event) (ms : list MobileEvent) (w : World),
    setter_owns_flag c = false ->
    Forall (fun t => cb_setOpen t = setOpen (Sidebar c (store w))) (pending w) ->
    shared_open c (run c w es) = shared_open c w
    /\ shared_open c (mobile_run c w ms) = shared_open c w.
Proof.
  intros c es ms w Hown Hall. split.
  - revert w Hall. unfold run.
    induction es as [|e es IH]; intros w Hall; simpl; [reflexivity|].
    destruct (step_foreign c w e Hown Hall) as [Hopen Hpend].
    rewrite IH; [exact Hopen | exact Hpend].
  - clear Hall. revert w. unfold mobile_run.
    induction ms as [|e ms IH]; intros w; simpl; [reflexivity|].
    rewrite IH. apply mobile_step_foreign. exact Hown.
Qed.

Lemma foreign_setter_freezes_open_witness :
  let w := SidebarBody open_only (initial_store true) in
  setter_owns_flag open_only = false
  /\ shared_open open_only w = true
  /\ shared_open open_only
       (run open_only w [MouseLeave; Elapse 120; MouseEnter; MouseLeave; Elapse 500])
     = true.
Proof.
  intros w. split; [reflexivity|]. split; [reflexivity|].
  destruct (foreign_setter_freezes_open open_only
              [MouseLeave; Elapse 120; MouseEnter; MouseLeave; Elapse 500]
              [] w eq_refl (Forall_nil _)) as [Hrun _].
  exact Hrun.
Defined.

(** ** What the timers do and never do *)

Lemma step_clock_mono (c : Caller) (w : World) (e : Event) :
  clock w <= clock (step c w e).
Proof.
  destruct e as [| |ms|]; simpl.
  - destruct (desktop w); [|lia]. unfold onMouseEnter.
    destruct (animate _); simpl; lia.
  - destruct (desktop w); simpl; lia.
  - lia.
  - lia.
Qed.

Lemma run_clock_mono (c : Caller) (es : list Event) :
  forall w, clock w <= clock (run c w es).
Proof.
  unfold run. induction es as [|e es IH]; intros w; simpl; [lia|].
  pose proof (step_clock_mono c w e). pose proof (IH (step c w e)). lia.
Qed.

Lemma step_keeps_timer (c : Caller) (w : World) (e : Event) (t : Timer) :
  In t (pending w) ->
  clock (step c w e) < due t ->
  In t (pending (step c w e)).
Proof.
  intros Hin Hdue. destruct e as [| |ms|]; simpl in *.
  - destruct (desktop w); [|exact Hin]. unfold onMouseEnter.
    destruct (animate _); exact Hin.
  - destruct (desktop w); [|exact Hin]. simpl. apply in_or_app. left. exact Hin.
  - apply filter_In. split; [exact Hin|].
    unfold is_due. apply negb_true_iff. apply Nat.leb_gt. exact Hdue.
  - exact Hin.
Qed.

(** X4. Nothing cancels a scheduled collapse: a timer in the queue is
    still there after any sequence of pointer-enters, pointer-leaves,
    elapsed time and unmount, as long as its due time has not been
    reached. *)
Theorem pending_timer_survives :
  forall (c : Caller) (es : list Event) (w : World) (t : Timer),
    In t (pending w) ->
    clock (run c w es) < due t ->
    In t (pending (run c w es)).
Proof.
  intros c es. unfold run.
  induction es as [|e es IH]; intros w t Hin Hdue; simpl in *; [exact Hin|].
  apply IH; [|exact Hdue].
  apply step_keeps_timer; [exact Hin|].
  pose proof (run_clock_mono c es (step c w e)) as Hmono. unfold run in Hmono.
  lia.
Qed.

Lemma pending_timer_survives_witness :
  let w := run no_props (SidebarBody no_props (initial_store false))
               [MouseEnter; MouseLeave] in
  let t := collapse_timer (Sidebar no_props (store w))
                          (SidebarBody no_props (initial_store false)) in
  In t (pending w)
  /\ In t (pending (run no_props w
                     [Elapse 40; MouseEnter; MouseLeave; Elapse 79; MouseEnter; Unmount])).
Proof.
  intros w t.
  assert (Hin : In t (pending w)) by (left; reflexivity).
  split; [exact Hin|].
  apply (pending_timer_survives no_props
           [Elapse 40; MouseEnter; MouseLeave; Elapse 79; MouseEnter; Unmount] w t Hin).
  vm_compute. lia.
Defined.

Lemma dispatch_false_keeps_closed (c : Caller) (d : Dispatch) (s : Store) :
  open (Sidebar c s) = false -> open (Sidebar c (dispatch d false s)) = false.
Proof.
  destruct c as [po ps pa]. simpl. destruct po, d; simpl; trivial.
Qed.

Lemma step_keeps_closed (c : Caller) (w : World) (e : Event) :
  is_enter e = false ->
  shared_open c w = false -> shared_open c (step c w e) = false.
Proof.
  unfold shared_open. intros He Hclosed. destruct e as [| |ms|]; simpl in *.
  - discriminate He.
  - destruct (desktop w); exact Hclosed.
  - apply fire_all_keeps_closed. exact Hclosed.
  - exact Hclosed.
Qed.

Lemma mobile_step_keeps_closed (c : Caller) (w : World) (e : MobileEvent) :
  shared_open c w = false -> shared_open c (mobile_step c w e) = false.
Proof.
  unfold shared_open. intros Hclosed. destruct e; simpl.
  - destruct (mobile w); [exact Hclosed|].
    apply dispatch_false_keeps_closed. exact Hclosed.
  - unfold click_menu. destruct (mobile w); exact Hclosed.
  - exact Hclosed.
Qed.

(** X5. Only a pointer-enter opens the sidebar: a closed sidebar stays
    closed through any sequence of pointer-leaves, elapsed time and
    unmount, whatever timers are in the queue, and through any sequence of
    mobile mounts, menu clicks and unmounts. *)
Theorem only_pointer_enter_opens :
  forall (c : Caller) (es : list Event) (ms : list MobileEvent) (w : World),
    forallb (fun e => negb (is_enter e)) es = true ->
    shared_open c w = false ->
    shared_open c (run c w es) = false
    /\ shared_open c (mobile_run c w ms) = false.
Proof.
  intros c es ms w Hes Hclosed. split.
  - revert w Hclosed Hes. unfold run.
    induction es as [|e es IH]; intros w Hclosed Hes; simpl in *; [exact Hclosed|].
    apply andb_true_iff in Hes. destruct Hes as [He Hes].
    apply IH; [|exact Hes].
    apply step_keeps_closed; [|exact Hclosed].
    apply negb_true_iff. exact He.
  - clear Hes. revert w Hclosed. unfold mobile_run.
    induction ms as [|e ms IH]; intros w Hclosed; simpl; [exact Hclosed|].
    apply IH. apply mobile_step_keeps_closed. exact Hclosed.
Qed.

Lemma only_pointer_enter_opens_witness :
  let w := SidebarBody no_props (initial_store false) in
  shared_open no_props w = false
  /\ shared_open no_props
       (run no_props w [MouseLeave; Elapse 60; MouseLeave; Elapse 200; Unmount])
     = false.
Proof.
  intros w. split; [reflexivity|].
  destruct (only_pointer_enter_opens no_props
              [MouseLeave; Elapse 60; MouseLeave; Elapse 200; Unmount] [] w
              eq_refl eq_refl) as [Hrun _].
  exact Hrun.
Defined.

(** X6. The collapse comes exactly at the delay: for an open, animated
    sidebar with an empty timer queue whose setter owns the flag, a
    pointer-leave followed by [ms] milliseconds leaves the sidebar open
    when [ms < 120] and closed when [ms >= 120]. *)
Theorem collapse_at_delay :
  forall (c : Caller) (w : World) (ms : nat),
    desktop w <> None ->
    animate (Sidebar c (store w)) = true ->
    setter_owns_flag c = true ->
    pending w = [] ->
    shared_open c w = true ->
    shared_open c (run c w [MouseLeave; Elapse ms]) = (ms <? collapse_delay).
Proof.
  intros c w ms Hmounted Hanim Hown Hempty Hopen.
  destruct (desktop w) as [d|] eqn:Hd; [clear Hmounted | contradiction].
  unfold run, shared_open. cbn [fold_left step]. rewrite Hd.
  set (context := Sidebar c (store w)) in *.
  cbn [store elapse pending clock onMouseLeave]. rewrite Hempty. cbn [app filter].
  destruct (ms <? collapse_delay) eqn:Hms.
  - apply Nat.ltb_lt in Hms.
    rewrite (collapse_timer_not_due context w Hms). exact Hopen.
  - apply Nat.ltb_ge in Hms.
    rewrite (collapse_timer_due context w (now := clock w + ms)) by lia.
    cbn [fold_left]. apply fire_own_timer; [exact Hown | exact Hanim | reflexivity].
Qed.

Lemma collapse_at_delay_witness :
  let w := run no_props (SidebarBody no_props (initial_store false)) [MouseEnter] in
  shared_open no_props w = true
  /\ shared_open no_props (run no_props w [MouseLeave; Elapse 119]) = true
  /\ shared_open no_props (run no_props w [MouseLeave; Elapse 120]) = false.
Proof.
  intros w.
  assert (Hm : desktop w <> None) by discriminate.
  split; [reflexivity|]. split.
  - apply (@collapse_at_delay no_props w 119 Hm); reflexivity.
  - apply (@collapse_at_delay no_props w 120 Hm); reflexivity.
Defined.

(** ** Time passing in steps *)

Lemma fire_comm (t1 t2 : Timer) (s : Store) :
  fire t1 (fire t2 s) = fire t2 (fire t1 s).
Proof.
  unfold fire. destruct (cb_animate t1), (cb_animate t2); try reflexivity.
  destruct (cb_setOpen t1), (cb_setOpen t2); reflexivity.
Qed.

Lemma fire_all_comm (t : Timer) (l : list Timer) :
  forall s,
    fold_left (fun s t => fire t s) l (fire t s)
    = fire t (fold_left (fun s t => fire t s) l s).
Proof.
  induction l as [|t' l IH]; intros s; simpl; [reflexivity|].
  rewrite fire_comm. apply IH.
Qed.

Lemma is_due_mono (a b : nat) (t : Timer) :
  a <= b -> is_due a t = true -> is_due b t = true.
Proof.
  unfold is_due. intros Hab Ha. apply Nat.leb_le in Ha. apply Nat.leb_le. lia.
Qed.

Lemma fire_in_two_rounds (a b : nat) (l : list Timer) :
  a <= b ->
  forall s,
    fold_left (fun s t => fire t s)
      (filter (is_due b) (filter (fun t => negb (is_due a t)) l))
      (fold_left (fun s t => fire t s) (filter (is_due a) l) s)
    = fold_left (fun s t => fire t s) (filter (is_due b) l) s.
Proof.
  intros Hab. induction l as [|t l IH]; intros s; [reflexivity|].
  cbn [filter]. destruct (is_due a t) eqn:Ha.
  - rewrite (is_due_mono t Hab Ha). cbn [negb fold_left]. apply IH.
  - cbn [negb filter]. destruct (is_due b t) eqn:Hb; [|apply IH].
    cbn [fold_left]. rewrite <- IH. rewrite !fire_all_comm. reflexivity.
Qed.

Lemma not_due_in_two_rounds (a b : nat) (l : list Timer) :
  a <= b ->
  filter (fun t => negb (is_due b t)) (filter (fun t => negb (is_due a t)) l)
  = filter (fun t => negb (is_due b t)) l.
Proof.
  intros Hab. induction l as [|t l IH]; [reflexivity|].
  cbn [filter]. destruct (is_due a t) eqn:Ha.
  - rewrite (is_due_mono t Hab Ha). cbn [negb]. exact IH.
  - cbn [negb filter]. destruct (is_due b t); cbn [negb]; rewrite IH; reflexivity.
Qed.

(** X7. Time passes the same way in one step or in two: letting [a] and
    then [b] milliseconds go by leaves the state cells, the clock and the
    timer queue exactly as letting [a + b] milliseconds go by, for every
    queue; all callbacks write [false], so the order they run in does not
    matter. *)
Theorem elapse_in_two_steps :
  forall (c : Caller) (w : World) (a b : nat),
    run c w [Elapse a; Elapse b] = run c w [Elapse (a + b)].
Proof.
  intros c w a b. unfold run. cbn [fold_left step]. unfold elapse.
  cbn [store clock nextHandle pending desktop mobile].
  rewrite <- Nat.add_assoc.
  rewrite (@fire_in_two_rounds (clock w + a) (clock w + (a + b))) by lia.
  rewrite (@not_due_in_two_rounds (clock w + a) (clock w + (a + b))) by lia.
  reflexivity.
Qed.

(** ** The timer queue of a mounted body *)

Lemma StronglySorted_snoc {A : Type} (R : A -> A -> Prop) (l : list A) (x : A) :
  StronglySorted R l -> Forall (fun y => R y x) l -> StronglySorted R (l ++ [x]).
Proof.
  induction 1 as [|a l Hl IH Ha]; intros Hall; simpl.
  - constructor; constructor.
  - inversion Hall as [|a' l' Hax Hlx]; subst. constructor.
    + apply IH. exact Hlx.
    + apply Forall_app. split; [exact Ha | constructor; [exact Hax | constructor]].
Qed.

Lemma StronglySorted_filter {A : Type} (R : A -> A -> Prop) (f : A -> bool)
      (l : list A) :
  StronglySorted R l -> StronglySorted R (filter f l).
Proof.
  induction 1 as [|a l Hl IH Ha]; simpl; [constructor|].
  destruct (f a); [|exact IH].
  constructor; [exact IH | apply Forall_filter_keep; exact Ha].
Qed.

Lemma queue_inv_step (c : Caller) (w : World) (e : Event) :
  queue_inv w -> queue_inv (step c w e).
Proof.
  intros [Hwin Hsort]. destruct e as [| |ms|]; simpl.
  - destruct (desktop w); [|split; assumption].
    unfold onMouseEnter. destruct (animate _); split; assumption.
  - destruct (desktop w); [|split; assumption].
    split; cbn [pending clock onMouseLeave].
    + apply Forall_app. split; [exact Hwin|].
      constructor; [|constructor]. simpl. unfold collapse_delay. lia.
    + apply StronglySorted_snoc; [exact Hsort|].
      apply (Forall_impl _ (P := fun t => clock w < due t <= clock w + collapse_delay));
        [|exact Hwin].
      intros t Ht. simpl. lia.
  - split; cbn [pending clock elapse].
    + apply Forall_forall. intros t Hin. apply filter_In in Hin.
      destruct Hin as [Hin Hnot].
      apply negb_true_iff in Hnot. unfold is_due in Hnot. apply Nat.leb_gt in Hnot.
      rewrite Forall_forall in Hwin. specialize (Hwin t Hin). lia.
    + apply StronglySorted_filter. exact Hsort.
  - split; assumption.
Qed.

Lemma queue_inv_run (c : Caller) (es : list Event) :
  forall w, queue_inv w -> queue_inv (run c w es).
Proof.
  unfold run. induction es as [|e es IH]; intros w Hinv; simpl; [exact Hinv|].
  apply IH. apply queue_inv_step. exact Hinv.
Qed.

Lemma queue_inv_body (c : Caller) (s : Store) : queue_inv (SidebarBody c s).
Proof.
  split; constructor.
Qed.

Lemma filter_none {A : Type} (f : A -> bool) (l : list A) :
  Forall (fun x => f x = false) l -> filter f l = [].
Proof.
  induction 1 as [|a l Ha _ IH]; simpl; [reflexivity|].
  rewrite Ha. exact IH.
Qed.

(** X8. From the mount of the body, after any sequence of pointer events,
    elapsed time and unmount, every timer in the queue is due within the
    next 120 ms and none is overdue, and the queue is ordered by due time
    (so that running the due callbacks in queue order is running them in
    due order). *)
Theorem timer_queue_window :
  forall (c : Caller) (s : Store) (es : list Event),
    let w := run c (SidebarBody c s) es in
    Forall (fun t => clock w < due t <= clock w + collapse_delay) (pending w)
    /\ StronglySorted (fun a b => due a <= due b) (pending w).
Proof.
  intros c s es w. apply (queue_inv_run c es (queue_inv_body c s)).
Qed.

(** X9. From the mount of the body, 120 ms (or more) without a
    pointer-leave empty the timer queue, whatever happened before: every
    scheduled collapse has run by then. *)
Theorem queue_drains_after_delay :
  forall (c : Caller) (s : Store) (es : list Event) (ms : nat),
    collapse_delay <= ms ->
    pending (run c (SidebarBody c s) (es ++ [Elapse ms])) = [].
Proof.
  intros c s es ms Hms. unfold run. rewrite fold_left_app. cbn [fold_left step].
  fold (run c (SidebarBody c s) es).
  destruct (queue_inv_run c es (queue_inv_body c s)) as [Hwin _].
  cbn [pending elapse]. apply filter_none.
  apply (Forall_impl _ (P := fun t => clock (run c (SidebarBody c s) es) < due t
                                       <= clock (run c (SidebarBody c s) es)
                                          + collapse_delay));
    [|exact Hwin].
  intros t Ht. apply negb_false_iff. unfold is_due. apply Nat.leb_le. lia.
Qed.

Lemma queue_drains_after_delay_witness :
  pending (run no_props (SidebarBody no_props (initial_store false))
             [MouseEnter; MouseLeave; Elapse 50; MouseLeave]) <> []
  /\ pending (run no_props (SidebarBody no_props (initial_store false))
                ([MouseEnter; MouseLeave; Elapse 50; MouseLeave] ++ [Elapse 120]))
     = [].
Proof.
  split; [discriminate|].
  apply (@queue_drains_after_delay no_props (initial_store false)
           [MouseEnter; MouseLeave; Elapse 50; MouseLeave] 120).
  unfold collapse_delay. lia.
Defined.

Lemma NoDup_handles_filter (f : Timer -> bool) (l : list Timer) :
  NoDup (map handle l) -> NoDup (map handle (filter f l)).
Proof.
  induction l as [|t l IH]; simpl; intros Hnd; [constructor|].
  inversion Hnd as [|h hs Hnotin Hrest]; subst.
  destruct (f t); [|apply IH; exact Hrest].
  simpl. constructor; [|apply IH; exact Hrest].
  intros Hin. apply Hnotin.
  apply in_map_iff in Hin. destruct Hin as (t' & Heq & Hin').
  apply filter_In in Hin'. apply in_map_iff. exists t'. tauto.
Qed.

Lemma NoDup_handles_snoc (l : list Timer) (t : Timer) :
  NoDup (map handle l) ->
  Forall (fun t' => handle t' < handle t) l ->
  NoDup (map handle (l ++ [t])).
Proof.
  induction l as [|a l IH]; simpl; intros Hnd Hlt.
  - constructor; [intros [] | constructor].
  - inversion Hnd as [|h hs Hnotin Hrest]; subst.
    inversion Hlt as [|a' l' Ha Hl]; subst.
    constructor; [|apply IH; assumption].
    rewrite map_app, in_app_iff. intros [Hin | [Heq | []]].
    + exact (Hnotin Hin).
    + lia.
Qed.

Lemma handles_inv_step (c : Caller) (w : World) (e : Event) :
  handles_inv w -> handles_inv (step c w e).
Proof.
  intros (Hnd & Hlt & Href). destruct e as [| |ms|]; simpl.
  - destruct (desktop w) eqn:Hd; [|repeat split; try assumption; rewrite Hd; exact I].
    unfold onMouseEnter.
    destruct (animate _); repeat split; try assumption;
      cbn [desktop with_store]; rewrite Hd; exact Href.
  - destruct (desktop w) eqn:Hd; [|repeat split; try assumption; rewrite Hd; exact I].
    unfold handles_inv. cbn [pending nextHandle desktop onMouseLeave hoverTimeout].
    split; [|split; [|reflexivity]].
    + apply NoDup_handles_snoc; [exact Hnd | exact Hlt].
    + apply Forall_app. split.
      * apply (Forall_impl _ (P := fun t => handle t < nextHandle w)); [|exact Hlt].
        intros t Ht. lia.
      * constructor; [simpl; lia | constructor].
  - unfold handles_inv. cbn [pending nextHandle desktop elapse].
    split; [|split; [|exact Href]].
    + apply NoDup_handles_filter. exact Hnd.
    + apply Forall_filter_keep. exact Hlt.
  - unfold handles_inv. cbn [pending nextHandle desktop unmount_desktop].
    repeat split; assumption.
Qed.

(** X10. From the mount of the body, after any sequence of pointer
    events, elapsed time and unmount: the handles of the timers in the
    queue are pairwise distinct and were all handed out by [setTimeout]
    already, and while [DesktopSidebar] is mounted its [hoverTimeout] ref
    is unset exactly as long as no timer was scheduled and otherwise names
    the timer scheduled last, never an earlier one. *)
Theorem hoverTimeout_names_last_timer :
  forall (c : Caller) (s : Store) (es : list Event),
    let w := run c (SidebarBody c s) es in
    NoDup (map handle (pending w))
    /\ Forall (fun t => handle t < nextHandle w) (pending w)
    /\ match desktop w with
       | Some d =>
           match hoverTimeout d with
           | Some h => nextHandle w = S h
           | None => nextHandle w = 0
           end
       | None => True
       end.
Proof.
  intros c s es.
  assert (Hrun : forall w, handles_inv w -> handles_inv (run c w es)).
  { unfold run. induction es as [|e es IH]; intros w Hinv; simpl; [exact Hinv|].
    apply IH. apply handles_inv_step. exact Hinv. }
  apply Hrun. repeat split; constructor.
Qed.

(** ** Clicking the menu button *)

(** X11. After [n] clicks on the menu button of a mounted [MobileSidebar]
    the drawer state is the starting one when [n] is even and its negation
    when [n] is odd; the clicks change neither the shared state cells nor
    the timer queue. *)
Theorem menu_clicks_parity :
  forall (c : Caller) (n : nat) (w : World) (m : MobileState),
    mobile w = Some m ->
    let w' := mobile_run c w (repeat ClickMenu n) in
    mobile w' = Some {| menuOpen := xorb (menuOpen m) (Nat.odd n) |}
    /\ store w' = store w
    /\ pending w' = pending w.
Proof.
  intros c n. unfold mobile_run.
  induction n as [|n IH]; intros w m Hm; cbn [repeat fold_left].
  - destruct m as [b]. simpl. rewrite xorb_false_r. repeat split. exact Hm.
  - assert (Hclick : mobile (mobile_step c w ClickMenu)
                     = Some {| menuOpen := negb (menuOpen m) |}).
    { simpl. unfold click_menu. rewrite Hm. reflexivity. }
    destruct (IH _ _ Hclick) as (Hmob & Hstore & Hpend).
    cbv zeta in *. rewrite Hmob, Hstore, Hpend.
    repeat split.
    + rewrite Nat.odd_succ, <- Nat.negb_odd. cbn [menuOpen].
      destruct (menuOpen m), (Nat.odd n); reflexivity.
    + simpl. unfold click_menu. rewrite Hm. reflexivity.
    + simpl. unfold click_menu. rewrite Hm. reflexivity.
Qed.

Lemma menu_clicks_parity_witness :
  let w := SidebarBody no_props (initial_store false) in
  mobile w = Some {| menuOpen := false |}
  /\ mobile (mobile_run no_props w (repeat ClickMenu 5))
     = Some {| menuOpen := true |}
  /\ mobile (mobile_run no_props w (repeat ClickMenu 6))
     = Some {| menuOpen := false |}.
Proof.
  intros w. split; [reflexivity|]. split.
  - apply (@menu_clicks_parity no_props 5 w {| menuOpen := false |} eq_refl).
  - apply (@menu_clicks_parity no_props 6 w {| menuOpen := false |} eq_refl).
Defined.

(** ** The reveal wrapper under any viewport hook *)

Section RevealCharacterised.
Variable O : Type.
Variable useInView : Hook O.

Lemma in_view_is_visible_step (st : RevealState O) (inside : bool) :
  (hook_inView useInView (observer st) = true -> controls st = visible) ->
  hook_inView useInView (observer (ScrollReveal useInView st inside)) = true ->
  controls (ScrollReveal useInView st inside) = visible.
Proof.
  intros Hinv. unfold ScrollReveal. cbn [observer controls].
  intros Hnow. rewrite Hnow.
  destruct (hook_inView useInView (observer st)); simpl;
    [apply Hinv; reflexivity | reflexivity].
Qed.

Lemma in_view_is_visible (es : list bool) :
  forall st : RevealState O,
    (hook_inView useInView (observer st) = true -> controls st = visible) ->
    hook_inView useInView (observer (reveal_run useInView st es)) = true ->
    controls (reveal_run useInView st es) = visible.
Proof.
  unfold reveal_run.
  induction es as [|e es IH]; intros st Hinv; simpl; [exact Hinv|].
  apply IH. apply in_view_is_visible_step. exact Hinv.
Qed.

Lemma mount_in_view_is_visible :
  hook_inView useInView (observer (mount useInView)) = true ->
  controls (mount useInView) = visible.
Proof.
  unfold mount. cbn [observer controls]. intros ->. reflexivity.
Qed.

Lemma visible_was_in_view (es : list bool) :
  controls (reveal_run useInView (mount useInView) es) = visible ->
  exists es1 es2,
    es = es1 ++ es2
    /\ hook_inView useInView
         (observer (reveal_run useInView (mount useInView) es1)) = true.
Proof.
  induction es as [|e es IH] using rev_ind.
  - intros Hv. exists [], []. split; [reflexivity|].
    unfold reveal_run, mount in *. cbn [fold_left observer controls] in *.
    destruct (hook_inView useInView (hook_init useInView));
      [reflexivity | discriminate Hv].
  - unfold reveal_run in *. rewrite fold_left_app. cbn [fold_left].
    set (st := fold_left (ScrollReveal useInView) es (mount useInView)) in *.
    intros Hv.
    destruct (controls st) eqn:Hc.
    + exists (es ++ [e]), []. split; [symmetry; apply app_nil_r|].
      rewrite fold_left_app. cbn [fold_left]. fold st.
      unfold ScrollReveal in *. cbn [observer controls] in *.
      rewrite Hc in Hv.
      destruct (Bool.eqb _ _); [discriminate Hv|].
      unfold effect in Hv.
      destruct (hook_inView useInView (hook_step useInView (observer st) e));
        [reflexivity | discriminate Hv].
    + destruct (IH eq_refl) as (es1 & es2 & -> & Hin).
      exists es1, (es2 ++ [e]). split; [symmetry; apply app_assoc | exact Hin].
Qed.

(** X12. Whatever the viewport hook does, the wrapper is [visible] after
    a sequence of observer callbacks exactly when the hook has returned
    [inView = true] on some render up to then (the mount included): it
    never shows content the hook has not reported in view, and never
    misses a report. *)
Theorem visible_iff_reported_in_view :
  forall es : list bool,
    controls (reveal_run useInView (mount useInView) es) = visible
    <-> exists es1 es2,
          es = es1 ++ es2
          /\ hook_inView useInView
               (observer (reveal_run useInView (mount useInView) es1)) = true.
Proof.
  intros es. split; [apply visible_was_in_view|].
  intros (es1 & es2 & -> & Hin).
  unfold reveal_run. rewrite fold_left_app.
  apply (reveal_run_keeps_visible useInView es2).
  apply (in_view_is_visible es1 (mount useInView) mount_in_view_is_visible Hin).
Qed.
End RevealCharacterised.

Lemma visible_iff_reported_in_view_witness :
  controls (reveal_run useInView_triggerOnce (mount useInView_triggerOnce)
              [false; true; false]) = visible
  /\ controls (reveal_run useInView_triggerOnce (mount useInView_triggerOnce)
                 [false; false]) <> visible.
Proof.
  split.
  - apply (visible_iff_reported_in_view useInView_triggerOnce [false; true; false]).
    exists [false; true], [false]. split; reflexivity.
  - intros Hv.
    apply (visible_iff_reported_in_view useInView_triggerOnce [false; false]) in Hv.
    destruct Hv as (es1 & es2 & Heq & Hin).
    destruct es1 as [|a [|b [|x es1]]]; simpl in Heq; inversion Heq; subst;
      try discriminate Hin.
Defined.

(** ** Pointer-leaves in quick succession *)

Lemma pointer_step_queue (c : Caller) (w : World) (e : Event) :
  is_pointer e = true ->
  desktop w <> None ->
  desktop (step c w e) <> None
  /\ List.length (pending (step c w e))
     = List.length (pending w) + (if is_leave e then 1 else 0).
Proof.
  intros He Hm. destruct (desktop w) as [d|] eqn:Hd; [|contradiction].
  destruct e as [| |ms|]; try discriminate He; simpl; rewrite Hd.
  - unfold onMouseEnter. destruct (animate _); simpl; rewrite Hd;
      (split; [discriminate | lia]).
  - simpl. split; [discriminate|]. rewrite length_app. reflexivity.
Qed.

(** X13. Every pointer-leave on a mounted [DesktopSidebar] puts one more
    timer in the queue, with [animate] on or off, and a pointer-enter
    takes none out: after a burst of pointer events with no time passing
    the queue has grown by the number of pointer-leaves. *)
Theorem pointer_leaves_pile_up :
  forall (c : Caller) (es : list Event) (w : World),
    desktop w <> None ->
    forallb is_pointer es = true ->
    List.length (pending (run c w es))
    = List.length (pending w) + List.length (filter is_leave es).
Proof.
  intros c es. unfold run.
  induction es as [|e es IH]; intros w Hm Hes; simpl in *; [lia|].
  apply andb_true_iff in Hes. destruct Hes as [He Hes].
  destruct (pointer_step_queue c w e He Hm) as [Hm' Hlen].
  rewrite (IH _ Hm' Hes), Hlen.
  destruct (is_leave e); simpl; lia.
Qed.

Lemma pointer_leaves_pile_up_witness :
  let c := {| passes_open := false; passes_setOpen := false;
              passes_animate := Some false |} in
  List.length (pending (run c (SidebarBody c (initial_store false))
                     [MouseLeave; MouseEnter; MouseLeave; MouseEnter; MouseLeave]))
  = 3.
Proof.
  intros c.
  apply (@pointer_leaves_pile_up c
           [MouseLeave; MouseEnter; MouseLeave; MouseEnter; MouseLeave]
           (SidebarBody c (initial_store false))).
  - discriminate.
  - reflexivity.
Defined.
